(** * Verification of [jules-scratch/verification/verify_theme_package.py]

    The script drives a browser through Playwright's synchronous API.  Its
    four statements and the [with] block of [main] are embedded in a state
    and exception monad over a [World]: the process inputs, the filesystem,
    the server behind the target URL, the browser-side objects the script
    holds handles to, and the sequence of API calls made so far.

    The file has three parts: the model of the Playwright calls the script
    uses, the script itself, and the properties.  Playwright is not part of
    the repository: its calls are modelled after its documented behaviour
    (strict locators, role and name matching, assertion failures, viewport
    screenshots). *)

From Stdlib Require Import String Ascii List ZArith Lia Bool.
From stdpp Require Import base option list gmap strings.

Local Open Scope string_scope.

(** ** Python exceptions the script can meet *)

(** [AssertionError] is the builtin; [Error] is [playwright.sync_api.Error]
    and [TimeoutError] its subclass [playwright.sync_api.TimeoutError]. *)
Inductive exn : Type :=
| AssertionError (msg : string)
| Error (msg : string)
| TimeoutError (msg : string).


Inductive result (A : Type) : Type :=
| Ok (a : A)
| Raise (e : exn).
Arguments Ok {A} a.
Arguments Raise {A} e.

(** ** Documents served to the browser *)

(** An element as the accessibility tree exposes it: its ARIA role, its
    accessible name (whitespace already normalised) and whether it is
    rendered with a non-empty box. *)
Record Element : Type := {
  role : string;
  accessible_name : string;
  visible : bool
}.

(** What a region of the page exposes at each instant, in milliseconds
    since the navigation finished. *)
Abbreviation Timeline := (N -> list Element).

(** One row of rendered pixels. *)
Definition Scanline : Type := list N.

(** A loaded document: the content of its inline frames, keyed by the [id]
    attribute of the [iframe] element, and its rendering, row by row from
    the top of the document, [scroll_height] rows tall. *)
Record Document : Type := {
  iframes : gmap string Timeline;
  canvas : nat -> Scanline;
  scroll_height : nat
}.

(** How the server answers a navigation. *)
Inductive NavOutcome : Type :=
| Loaded (d : Document)
| Unreachable
| LoadTimeout.

(** ** Files *)

Inductive ImageType : Type := Png | Jpeg.

Record File : Type := {
  format : ImageType;
  rows : list Scanline
}.

(** ** Handles and locators *)

Inductive BrowserType : Type := Chromium | Firefox | Webkit.

(** The object [sync_playwright().__enter__()] returns. *)
Record Playwright : Type := {
  chromium : BrowserType;
  firefox : BrowserType;
  webkit : BrowserType
}.

Definition Browser : Type := nat.
Definition Page : Type := nat.

Record FrameLocator : Type := {
  fl_page : Page;
  fl_selector : string
}.

Record Locator : Type := {
  loc_frame : FrameLocator;
  loc_role : string;
  loc_name : option string;
  loc_exact : option bool
}.

(** The object [expect(locator)] returns. *)
Record LocatorAssertions : Type := {
  actual_locator : Locator
}.

(** ** API calls, as they are logged *)

Inductive Call : Type :=
| CallEnter
| CallLaunch (bt : BrowserType) (headless : option bool)
| CallNewPage (b : Browser)
| CallGoto (p : Page) (url : string)
| CallFrameLocator (p : Page) (selector : string)
| CallGetByRole (fl : FrameLocator) (r : string) (name : option string)
                (exact : option bool)
| CallToBeVisible (l : Locator) (timeout : N)
| CallScreenshot (p : Page) (path : option string) (full_page : option bool)
| CallClose (b : Browser)
| CallExit.

(** ** The world *)

Inductive DriverState : Type := DriverIdle | DriverRunning | DriverStopped.

Inductive BrowserState : Type :=
| BrowserOpen (headless : bool)
| BrowserClosed.

Record PageState : Type := {
  page_browser : Browser;
  page_doc : option Document
}.

Record World : Type := {
  sys_argv : list string;
  os_environ : gmap string string;
  fs : gmap string File;
  dirs : gset string;
  server : string -> NavOutcome;
  driver : DriverState;
  browsers : list BrowserState;
  pages : list PageState;
  trace : list Call
}.

(** The directories on the way to the file at [path], outermost first:
    ["a"; "a/b"] for "a/b/c.png". *)
Fixpoint parent_dirs_from (seen path : string) : list string :=
  match path with
  | EmptyString => []
  | String c rest =>
      if Ascii.eqb c "/"
      then (match seen with
            | EmptyString => []
            | String _ _ => [seen]
            end ++ parent_dirs_from (String.append seen "/") rest)%list
      else parent_dirs_from (String.append seen (String c EmptyString)) rest
  end.

Definition parent_dirs (path : string) : list string :=
  parent_dirs_from "" path.

(** The directories that hold the files of [disk]. *)
Definition dirs_of (disk : gmap string File) : gset string :=
  union_list ((fun path => list_to_set (parent_dirs path))
              <$> elements (dom disk)).

(** The world a fresh interpreter process starts in, in a working directory
    with the directories [ds] and the image files [disk] below it. *)
Definition start (ds : gset string) (argv : list string)
    (environ : gmap string string) (disk : gmap string File)
    (net : string -> NavOutcome) : World :=
  {| sys_argv := argv; os_environ := environ; fs := disk; dirs := ds;
     server := net; driver := DriverIdle; browsers := []; pages := [];
     trace := [] |}.

(** The same, with no directory but those that hold the files. *)
Definition boot (argv : list string) (environ : gmap string string)
    (disk : gmap string File) (net : string -> NavOutcome) : World :=
  start (dirs_of disk) argv environ disk net.

(** ** The monad *)

Definition M (A : Type) : Type := World -> result A * World.

Definition ret {A} (a : A) : M A := fun w => (Ok a, w).

Definition bind {A B} (c : M A) (k : A -> M B) : M B :=
  fun w =>
    match c w with
    | (Ok a, w') => k a w'
    | (Raise e, w') => (Raise e, w')
    end.

Definition raise {A} (e : exn) : M A := fun w => (Raise e, w).

Notation "'let*' x ':=' c 'in' k" := (bind c (fun x => k))
  (at level 10, x name, c at level 100, k at level 200, only parsing).

Definition get : M World := fun w => (Ok w, w).

Definition log (c : Call) : M unit :=
  fun w =>
    (Ok tt,
     {| sys_argv := sys_argv w; os_environ := os_environ w; fs := fs w;
        dirs := dirs w; server := server w; driver := driver w; browsers := browsers w;
        pages := pages w; trace := trace w ++ [c] |}).

Definition set_driver (s : DriverState) : M unit :=
  fun w =>
    (Ok tt,
     {| sys_argv := sys_argv w; os_environ := os_environ w; fs := fs w;
        dirs := dirs w; server := server w; driver := s; browsers := browsers w;
        pages := pages w; trace := trace w |}).

Definition set_browsers (bs : list BrowserState) : M unit :=
  fun w =>
    (Ok tt,
     {| sys_argv := sys_argv w; os_environ := os_environ w; fs := fs w;
        dirs := dirs w; server := server w; driver := driver w; browsers := bs;
        pages := pages w; trace := trace w |}).

Definition set_pages (ps : list PageState) : M unit :=
  fun w =>
    (Ok tt,
     {| sys_argv := sys_argv w; os_environ := os_environ w; fs := fs w;
        dirs := dirs w; server := server w; driver := driver w; browsers := browsers w;
        pages := ps; trace := trace w |}).

(** Writing a file replaces what was at [path].  The working directory is
    taken to be writable: the write does not fail. *)
Definition write_file (path : string) (f : File) : M unit :=
  fun w =>
    (Ok tt,
     {| sys_argv := sys_argv w; os_environ := os_environ w;
        fs := <[path := f]> (fs w); dirs := dirs w;
        server := server w; driver := driver w; browsers := browsers w;
        pages := pages w; trace := trace w |}).

(** [os.makedirs(dirname(path), exist_ok=True)]: the directories on the way
    to [path] exist afterwards. *)
Definition make_dirs_for_file (path : string) : M unit :=
  fun w =>
    (Ok tt,
     {| sys_argv := sys_argv w; os_environ := os_environ w; fs := fs w;
        dirs := dirs w ∪ list_to_set (parent_dirs path);
        server := server w; driver := driver w; browsers := browsers w;
        pages := pages w; trace := trace w |}).

(** Python's [with cm as x: body] for a body that returns nothing:
    [__exit__] runs once [__enter__] has returned, whether the body raised
    or not; a true result of [__exit__] swallows the body's exception. *)
Definition with_ {A} (enter : M A) (exit : option exn -> M bool)
    (body : A -> M unit) : M unit :=
  fun w =>
    match enter w with
    | (Raise e, w1) => (Raise e, w1)
    | (Ok x, w1) =>
        match body x w1 with
        | (Ok _, w2) =>
            match exit None w2 with
            | (Ok _, w3) => (Ok tt, w3)
            | (Raise e, w3) => (Raise e, w3)
            end
        | (Raise e, w2) =>
            match exit (Some e) w2 with
            | (Ok true, w3) => (Ok tt, w3)
            | (Ok false, w3) => (Raise e, w3)
            | (Raise e', w3) => (Raise e', w3)
            end
        end
    end.

(** ** Playwright: matching and waiting *)

Definition lower_ascii (c : ascii) : ascii :=
  let n := nat_of_ascii c in
  if (65 <=? n)%nat && (n <=? 90)%nat then ascii_of_nat (n + 32) else c.

Fixpoint lower (s : string) : string :=
  match s with
  | EmptyString => EmptyString
  | String c s' => String (lower_ascii c) (lower s')
  end.

Fixpoint contains (needle hay : string) : bool :=
  String.prefix needle hay ||
  match hay with
  | EmptyString => false
  | String _ hay' => contains needle hay'
  end.

(** How [get_by_role] compares the [name] option with an accessible name:
    with [exact] the whole string, case-sensitively; without it (the
    default) a case-insensitive substring search. *)
Definition name_matches (exact : option bool) (wanted actual : string) : bool :=
  match exact with
  | Some true => String.eqb wanted actual
  | Some false | None => contains (lower wanted) (lower actual)
  end.

(** Whether the role selector of locator [l] picks element [e]. *)
Definition selects (l : Locator) (e : Element) : bool :=
  String.eqb (loc_role l) (role e) &&
  match loc_name l with
  | Some wanted => name_matches (loc_exact l) wanted (accessible_name e)
  | None => true
  end.

(** The frame a frame locator addresses.  The model covers id selectors,
    [#ident], the only kind the script uses; a selector that matches no
    [iframe] yields an empty frame. *)
Definition frame_content (d : Document) (selector : string) : Timeline :=
  match selector with
  | String "#" ident =>
      match iframes d !! ident with
      | Some tl => tl
      | None => fun _ => []
      end
  | _ => fun _ => []
  end.

(** The elements locator [l] resolves to in document [d] at instant [t]. *)
Definition resolve (d : Document) (l : Locator) (t : N) : list Element :=
  List.filter (selects l) (frame_content d (fl_selector (loc_frame l)) t).

Inductive WaitResult : Type :=
| Satisfied (t : N)
| StrictModeViolation (t : N)
| Expired.

(** The retry loop behind [to_be_visible]: the locator is resolved at each
    instant from [t] on, for [fuel] milliseconds.  It must resolve to one
    element (locators are strict: several elements are an error), and the
    expectation holds once that element is visible. *)
Fixpoint poll (obs : N -> list Element) (fuel : nat) (t : N) : WaitResult :=
  match fuel with
  | O => Expired
  | S fuel' =>
      match obs t with
      | [] => poll obs fuel' (N.succ t)
      | [e] => if visible e then Satisfied t else poll obs fuel' (N.succ t)
      | _ :: _ :: _ => StrictModeViolation t
      end
  end.

(** ** Playwright: rendering *)

(** [new_page] gives the page the default viewport, 1280 by 720. *)
Definition viewport_height : nat := 720.

(** What [screenshot] captures: the rows inside the viewport of a page left
    unscrolled, or with [full_page] every row of the document (never fewer
    than the viewport has).  A page that was never navigated is blank. *)
Definition capture (doc : option Document) (full_page : bool) : list Scanline :=
  match doc with
  | Some d =>
      map (canvas d)
          (seq 0 (if full_page
                  then Nat.max (scroll_height d) viewport_height
                  else viewport_height))
  | None => repeat [] viewport_height
  end.

(** ** Playwright: the calls *)

Definition closed_error : exn :=
  Error "Target page, context or browser has been closed".

(** A page can be driven while it exists and its browser is open. *)
Definition live_page (w : World) (p : Page) : option PageState :=
  match pages w !! p with
  | Some ps =>
      match browsers w !! page_browser ps with
      | Some (BrowserOpen _) => Some ps
      | Some BrowserClosed | None => None
      end
  | None => None
  end.

(** [sync_playwright().__enter__()]: starts the driver. *)
Definition sync_playwright_enter : M Playwright :=
  let* _ := log CallEnter in
  let* _ := set_driver DriverRunning in
  ret {| chromium := Chromium; firefox := Firefox; webkit := Webkit |}.

(** [sync_playwright().__exit__(...)]: stops the driver and returns [None],
    so an exception of the body is not swallowed. *)
Definition sync_playwright_exit (_ : option exn) : M bool :=
  let* _ := log CallExit in
  let* _ := set_driver DriverStopped in
  ret false.

(** [browser_type.launch(headless=...)].  The browser is taken to be
    installed: with the driver running, the launch succeeds. *)
Definition launch (bt : BrowserType) (headless : option bool) : M Browser :=
  let* _ := log (CallLaunch bt headless) in
  let* w := get in
  match driver w with
  | DriverRunning =>
      let* _ := set_browsers
                  (browsers w ++ [BrowserOpen (default true headless)]) in
      ret (length (browsers w))
  | DriverIdle | DriverStopped => raise (Error "Connection closed")
  end.

(** [browser.new_page()]. *)
Definition new_page (b : Browser) : M Page :=
  let* _ := log (CallNewPage b) in
  let* w := get in
  match browsers w !! b with
  | Some (BrowserOpen _) =>
      let* _ := set_pages
                  (pages w ++ [{| page_browser := b; page_doc := None |}]) in
      ret (length (pages w))
  | Some BrowserClosed | None => raise closed_error
  end.

(** [page.goto(url)]. *)
Definition goto (p : Page) (url : string) : M unit :=
  let* _ := log (CallGoto p url) in
  let* w := get in
  match live_page w p with
  | Some ps =>
      match server w url with
      | Loaded d =>
          set_pages (<[p := {| page_browser := page_browser ps;
                               page_doc := Some d |}]> (pages w))
      | Unreachable => raise (Error "net::ERR_CONNECTION_REFUSED")
      | LoadTimeout => raise (TimeoutError "Timeout 30000ms exceeded.")
      end
  | None => raise closed_error
  end.

(** [page.frame_locator(selector)]: builds a handle, nothing is looked up
    yet. *)
Definition frame_locator (p : Page) (selector : string) : M FrameLocator :=
  let* _ := log (CallFrameLocator p selector) in
  ret {| fl_page := p; fl_selector := selector |}.

(** [frame_locator.get_by_role(role, name=..., exact=...)]. *)
Definition get_by_role (fl : FrameLocator) (r : string)
    (name : option string) (exact : option bool) : M Locator :=
  let* _ := log (CallGetByRole fl r name exact) in
  ret {| loc_frame := fl; loc_role := r; loc_name := name;
         loc_exact := exact |}.

(** [expect(locator)]. *)
Definition expect (l : Locator) : LocatorAssertions :=
  {| actual_locator := l |}.

(** [expect(locator).to_be_visible(timeout=...)]: an expectation still unmet
    when the time is up raises [AssertionError]. *)
Definition to_be_visible (a : LocatorAssertions) (timeout : N) : M unit :=
  let l := actual_locator a in
  let* _ := log (CallToBeVisible l timeout) in
  let* w := get in
  match live_page w (fl_page (loc_frame l)) with
  | Some ps =>
      let obs := match page_doc ps with
                 | Some d => resolve d l
                 | None => fun _ => []
                 end in
      match poll obs (N.to_nat timeout) 0 with
      | Satisfied _ => ret tt
      | StrictModeViolation _ => raise (Error "strict mode violation")
      | Expired => raise (AssertionError "Locator expected to be visible")
      end
  | None => raise closed_error
  end.

(** [page.screenshot(path=..., full_page=...)]: the image type defaults to
    PNG and [full_page] to false; the image is returned, and written to
    [path] when one is given, replacing what was there, after the
    directories on the way to it were made. *)
Definition screenshot (p : Page) (path : option string)
    (full_page : option bool) : M (list Scanline) :=
  let* _ := log (CallScreenshot p path full_page) in
  let* w := get in
  match live_page w p with
  | Some ps =>
      let img := capture (page_doc ps) (default false full_page) in
      let* _ := match path with
                | Some f =>
                    let* _ := make_dirs_for_file f in
                    write_file f {| format := Png; rows := img |}
                | None => ret tt
                end in
      ret img
  | None => raise closed_error
  end.

(** [browser.close()]. *)
Definition close (b : Browser) : M unit :=
  let* _ := log (CallClose b) in
  let* w := get in
  match browsers w !! b with
  | Some _ => set_browsers (<[b := BrowserClosed]> (browsers w))
  | None => raise closed_error
  end.

(** ** The script *)

Definition test_theme_packaging (page : Page) : M unit :=
  let* _ := goto page "http://localhost:6006/?path=/story/industrymarkdown-slidepresentationwiththemeswitcher--theme-switcher-demo" in
  let* iframe_locator := frame_locator page "#storybook-preview-iframe" in
  let* heading := get_by_role iframe_locator "heading"
                    (Some "Theme Switcher Demo") None in
  let* _ := to_be_visible (expect heading) 30000 in
  let* _ := screenshot page
              (Some "jules-scratch/verification/theme-packaging-verification.png")
              None in
  ret tt.

Definition main : M unit :=
  with_ sync_playwright_enter sync_playwright_exit
    (fun p =>
       let* browser := launch (chromium p) (Some true) in
       let* page := new_page browser in
       let* _ := test_theme_packaging page in
       close browser).

(** What the operating system sees of a run. *)
Record Outcome : Type := {
  exit_status : Z;
  uncaught : option exn;
  final : World
}.

(** [if __name__ == "__main__": main()]: the interpreter exits with status 0
    when [main] returns and, after printing the traceback, with status 1
    when an exception reaches the top level. *)
Definition run_script (w : World) : Outcome :=
  match main w with
  | (Ok _, w') => {| exit_status := 0; uncaught := None; final := w' |}
  | (Raise e, w') => {| exit_status := 1; uncaught := Some e; final := w' |}
  end.

(** ** The constants of the script, named *)

Definition target_url : string :=
  "http://localhost:6006/?path=/story/industrymarkdown-slidepresentationwiththemeswitcher--theme-switcher-demo".

Definition frame_selector : string := "#storybook-preview-iframe".

Definition output_path : string :=
  "jules-scratch/verification/theme-packaging-verification.png".

Definition visibility_timeout : N := 30000.

(** The locator the script builds for the first slide's heading. *)
Definition heading_locator : Locator :=
  {| loc_frame := {| fl_page := 0; fl_selector := frame_selector |};
     loc_role := "heading";
     loc_name := Some "Theme Switcher Demo";
     loc_exact := None |}.

(** The outcome of the script's wait on document [d]. *)
Definition wait_on (d : Document) : WaitResult :=
  poll (resolve d heading_locator) (N.to_nat visibility_timeout) 0.

(** The calls of a run, in the order of the source, cut into the segments
    between which a run can stop. *)
Definition calls_to_goto : list Call :=
  [CallEnter; CallLaunch Chromium (Some true); CallNewPage 0;
   CallGoto 0 target_url].

Definition calls_to_wait : list Call :=
  [CallFrameLocator 0 frame_selector;
   CallGetByRole {| fl_page := 0; fl_selector := frame_selector |}
     "heading" (Some "Theme Switcher Demo") None;
   CallToBeVisible heading_locator visibility_timeout].

Definition calls_after_wait : list Call :=
  [CallScreenshot 0 (Some output_path) None; CallClose 0].

Definition full_sequence : list Call :=
  calls_to_goto ++ calls_to_wait ++ calls_after_wait ++ [CallExit].

(** The file a successful run leaves at [output_path]. *)
Definition screenshot_file (d : Document) : File :=
  {| format := Png; rows := capture (Some d) false |}.

(** The world a run that went through [with] ends in: the inputs and the
    server as they were, the driver stopped. *)
Definition halted (ds : gset string) (argv : list string)
    (environ : gmap string string)
    (disk : gmap string File) (net : string -> NavOutcome)
    (bs : list BrowserState) (ps : list PageState) (tr : list Call) : World :=
  {| sys_argv := argv; os_environ := environ; fs := disk; dirs := ds;
     server := net;
     driver := DriverStopped; browsers := bs; pages := ps; trace := tr |}.

(** The directories a screenshot at the output path makes sure of. *)
Definition made_dirs : gset string := list_to_set (parent_dirs output_path).

Definition failed (e : exn) (w : World) : Outcome :=
  {| exit_status := 1; uncaught := Some e; final := w |}.

Definition succeeded (w : World) : Outcome :=
  {| exit_status := 0; uncaught := None; final := w |}.

(** ** Worlds and calls the properties speak of *)

(** The world in which [main] calls [test_theme_packaging], and those the
    call can leave: the driver runs, the browser is launched, its one page
    holds [doc]. *)
Definition working (ds : gset string) (argv : list string)
    (environ : gmap string string)
    (disk : gmap string File) (net : string -> NavOutcome)
    (doc : option Document) (tr : list Call) : World :=
  {| sys_argv := argv; os_environ := environ; fs := disk; dirs := ds;
     server := net;
     driver := DriverRunning; browsers := [BrowserOpen true];
     pages := [{| page_browser := 0; page_doc := doc |}]; trace := tr |}.

Definition ready (argv : list string) (environ : gmap string string)
    (disk : gmap string File) (net : string -> NavOutcome) : World :=
  working (dirs_of disk) argv environ disk net None
    [CallEnter; CallLaunch Chromium (Some true); CallNewPage 0].

(** What [__exit__] makes of a world. *)
Definition stopped (w : World) : World :=
  {| sys_argv := sys_argv w; os_environ := os_environ w; fs := fs w;
     dirs := dirs w;
     server := server w; driver := DriverStopped; browsers := browsers w;
     pages := pages w; trace := trace w ++ [CallExit] |}.

(** The expectation of the wait holds at instant [t]: the locator resolves
    to one element, and it is visible. *)
Definition shown (obs : N -> list Element) (t : N) : Prop :=
  exists e, obs t = [e] /\ visible e = true.

(** The calls of the script proper, before the driver is stopped. *)
Definition script_sequence : list Call :=
  calls_to_goto ++ calls_to_wait ++ calls_after_wait.

(** The calls that wait, and those that write a file. *)
Definition is_wait (c : Call) : bool :=
  match c with
  | CallToBeVisible _ _ => true
  | _ => false
  end.

Definition writes_file (c : Call) : bool :=
  match c with
  | CallScreenshot _ (Some _) _ => true
  | _ => false
  end.

(** The calls up to the first one that writes a file, that one included. *)
Fixpoint until_write (calls : list Call) : list Call :=
  match calls with
  | [] => []
  | c :: rest => if writes_file c then [c] else c :: until_write rest
  end.

(** ** Example worlds *)

(** The heading of the first slide, as the story shows it. *)
Definition first_slide_heading : Element :=
  {| role := "heading"; accessible_name := "Theme Switcher Demo";
     visible := true |}.

(** The heading of the example given with the claim. *)
Definition extended_heading : Element :=
  {| role := "heading"; accessible_name := "Theme Switcher Demo Extended";
     visible := true |}.

(** A page whose preview frame shows the single element [h] from instant
    [appears] on, [height] rows tall. *)
Definition story (h : Element) (appears : N) (height : nat) : Document :=
  {| iframes :=
       {[ "storybook-preview-iframe" :=
            fun t => if (t <? appears)%N then [] else [h] ]};
     canvas := fun y => [N.of_nat y];
     scroll_height := height |}.

(** A frame that shows a heading of another name, for good. *)
Definition other_story : Document :=
  story {| role := "heading"; accessible_name := "Loading"; visible := true |}
        0 720.

(** A server that knows the target URL only. *)
Definition storybook (d : Document) (url : string) : NavOutcome :=
  if String.eqb url target_url then Loaded d else Unreachable.

(** ** Worlds and calls of the functions, in general *)

(** The locator [test_theme_packaging] builds when called on page [p]. *)
Definition locator_on (p : Page) : Locator :=
  {| loc_frame := {| fl_page := p; fl_selector := frame_selector |};
     loc_role := "heading";
     loc_name := Some "Theme Switcher Demo";
     loc_exact := None |}.

(** The calls of [test_theme_packaging] on page [p], in order. *)
Definition test_calls (p : Page) : list Call :=
  [CallGoto p target_url;
   CallFrameLocator p frame_selector;
   CallGetByRole {| fl_page := p; fl_selector := frame_selector |}
     "heading" (Some "Theme Switcher Demo") None;
   CallToBeVisible (locator_on p) visibility_timeout;
   CallScreenshot p (Some output_path) None].

(** World [w] after a call of [test_theme_packaging]: only the filesystem,
    the page table and the log can have changed. *)
Definition evolve (w : World) (disk : gmap string File) (ds : gset string)
    (ps : list PageState) (calls : list Call) : World :=
  {| sys_argv := sys_argv w; os_environ := os_environ w; fs := disk;
     dirs := ds; server := server w; driver := driver w; browsers := browsers w;
     pages := ps; trace := trace w ++ calls |}.

(** A page after a navigation that loaded [d]. *)
Definition navigated (ps : PageState) (d : Document) : PageState :=
  {| page_browser := page_browser ps; page_doc := Some d |}.

(** A frame that shows two headings the locator picks. *)
Definition crowded_story : Document :=
  {| iframes :=
       {[ "storybook-preview-iframe" :=
            fun _ : N => [first_slide_heading; extended_heading] ]};
     canvas := fun y => [N.of_nat y];
     scroll_height := 720 |}.

(** The calls of [main] on browser [b] and page [p]: [k] calls of the test,
    then [close] or not, then the stop of the driver. *)
Definition main_calls (b : Browser) (p : Page) (k : nat) (closed : bool)
    : list Call :=
  [CallEnter; CallLaunch Chromium (Some true); CallNewPage b]
  ++ firstn k (test_calls p)
  ++ (if closed then [CallClose b] else [])
  ++ [CallExit].

(** World [w] after a call of [main]: one more browser, in state [st], and
    one more page, holding [doc]. *)
Definition ended (w : World) (st : BrowserState) (doc : option Document)
    (disk : gmap string File) (ds : gset string) (calls : list Call) : World :=
  {| sys_argv := sys_argv w; os_environ := os_environ w; fs := disk;
     dirs := ds; server := server w; driver := DriverStopped;
     browsers := browsers w ++ [st];
     pages := pages w ++ [{| page_browser := length (browsers w);
                             page_doc := doc |}];
     trace := trace w ++ calls |}.

(** World [w] once [main] has started the driver, launched its browser and
    opened its page. *)
Definition entered (w : World) : World :=
  {| sys_argv := sys_argv w; os_environ := os_environ w; fs := fs w;
     dirs := dirs w; server := server w; driver := DriverRunning;
     browsers := browsers w ++ [BrowserOpen true];
     pages := pages w ++ [{| page_browser := length (browsers w);
                             page_doc := None |}];
     trace := trace w ++ [CallEnter; CallLaunch Chromium (Some true);
                          CallNewPage (length (browsers w))] |}.

(** * Properties *)

(** ** The two functions of the script, by cases *)

(** Symbolic execution of the calls: everything is computed but the retry
    loop, the rendering and the updates of the filesystem; an update of a
    one-entry table is computed on its own. *)
Ltac step :=
  cbn -[poll capture N.to_nat insert union list_to_set parent_dirs];
  repeat match goal with
         | |- context [<[0:=?x]> [?y]] => change (<[0:=x]> [y]) with [x]
         end.

Lemma test_theme_packaging_working ds argv environ disk net :
  test_theme_packaging 0
    (working ds argv environ disk net None
       [CallEnter; CallLaunch Chromium (Some true); CallNewPage 0]) =
  match net target_url with
  | Loaded d =>
      match wait_on d with
      | Satisfied _ =>
          (Ok tt,
           working (ds ∪ made_dirs) argv environ
             (<[output_path := screenshot_file d]> disk)
             net (Some d)
             (calls_to_goto ++ calls_to_wait
              ++ [CallScreenshot 0 (Some output_path) None]))
      | StrictModeViolation _ =>
          (Raise (Error "strict mode violation"),
           working ds argv environ disk net (Some d)
             (calls_to_goto ++ calls_to_wait))
      | Expired =>
          (Raise (AssertionError "Locator expected to be visible"),
           working ds argv environ disk net (Some d)
             (calls_to_goto ++ calls_to_wait))
      end
  | Unreachable =>
      (Raise (Error "net::ERR_CONNECTION_REFUSED"),
       working ds argv environ disk net None calls_to_goto)
  | LoadTimeout =>
      (Raise (TimeoutError "Timeout 30000ms exceeded."),
       working ds argv environ disk net None calls_to_goto)
  end.
Proof.
  unfold test_theme_packaging, working.
  unfold bind, goto, frame_locator, get_by_role, to_be_visible, screenshot,
    bind.
  step. change (net _) with (net target_url).
  destruct (net target_url) as [d| |]; [|reflexivity..].
  step. step.
  unfold wait_on, heading_locator, frame_selector, visibility_timeout.
  destruct (poll _ _ _); [|reflexivity..].
  step. step. reflexivity.
Qed.

Lemma test_theme_packaging_ready argv environ disk net :
  test_theme_packaging 0 (ready argv environ disk net) =
  match net target_url with
  | Loaded d =>
      match wait_on d with
      | Satisfied _ =>
          (Ok tt,
           working (dirs_of disk ∪ made_dirs) argv environ
             (<[output_path := screenshot_file d]> disk)
             net (Some d)
             (calls_to_goto ++ calls_to_wait
              ++ [CallScreenshot 0 (Some output_path) None]))
      | StrictModeViolation _ =>
          (Raise (Error "strict mode violation"),
           working (dirs_of disk) argv environ disk net (Some d)
             (calls_to_goto ++ calls_to_wait))
      | Expired =>
          (Raise (AssertionError "Locator expected to be visible"),
           working (dirs_of disk) argv environ disk net (Some d)
             (calls_to_goto ++ calls_to_wait))
      end
  | Unreachable =>
      (Raise (Error "net::ERR_CONNECTION_REFUSED"),
       working (dirs_of disk) argv environ disk net None calls_to_goto)
  | LoadTimeout =>
      (Raise (TimeoutError "Timeout 30000ms exceeded."),
       working (dirs_of disk) argv environ disk net None calls_to_goto)
  end.
Proof. exact (test_theme_packaging_working (dirs_of disk) argv environ disk net). Qed.

(** The [with] block of [main], whatever its body and the world: the body
    runs in a world with the driver started, [__exit__] runs after it, and
    an exception of the body is raised again. *)
Lemma with_sync_playwright (body : Playwright -> M unit) (w : World) :
  exists p w1 rb w2,
    sync_playwright_enter w = (Ok p, w1) /\
    driver w1 = DriverRunning /\
    body p w1 = (rb, w2) /\
    with_ sync_playwright_enter sync_playwright_exit body w =
    (match rb with Ok _ => Ok tt | Raise e => Raise e end, stopped w2).
Proof.
  unfold with_, sync_playwright_enter, sync_playwright_exit, bind, log,
    set_driver, ret.
  cbv beta iota.
  match goal with
  | |- context [body ?p ?w1] =>
      exists p, w1; destruct (body p w1) as [rb w2] eqn:Hb; exists rb, w2
  end.
  repeat split. destruct rb; reflexivity.
Qed.

Lemma main_from_start ds argv environ disk net :
  main (start ds argv environ disk net) =
  match test_theme_packaging 0
          (working ds argv environ disk net None
             [CallEnter; CallLaunch Chromium (Some true); CallNewPage 0]) with
  | (Ok _, w2) =>
      match close 0 w2 with
      | (Ok _, w3) => (Ok tt, stopped w3)
      | (Raise e, w3) => (Raise e, stopped w3)
      end
  | (Raise e, w2) => (Raise e, stopped w2)
  end.
Proof.
  unfold main, with_, start, working.
  unfold bind at 1 2, sync_playwright_enter, sync_playwright_exit, launch,
    new_page.
  cbn -[test_theme_packaging close].
  unfold bind.
  destruct (test_theme_packaging 0 _) as [[[]|e] w2]; [|reflexivity].
  destruct (close 0 w2) as [[[]|e] w3]; reflexivity.
Qed.

Lemma main_from_boot argv environ disk net :
  main (boot argv environ disk net) =
  match test_theme_packaging 0 (ready argv environ disk net) with
  | (Ok _, w2) =>
      match close 0 w2 with
      | (Ok _, w3) => (Ok tt, stopped w3)
      | (Raise e, w3) => (Raise e, stopped w3)
      end
  | (Raise e, w2) => (Raise e, stopped w2)
  end.
Proof. exact (main_from_start (dirs_of disk) argv environ disk net). Qed.

(** ** Every run from a fresh process, by cases *)

Lemma run_script_start ds argv environ disk net :
  run_script (start ds argv environ disk net) =
  match net target_url with
  | Loaded d =>
      let ps := [{| page_browser := 0; page_doc := Some d |}] in
      match wait_on d with
      | Satisfied _ =>
          succeeded
            (halted (ds ∪ made_dirs) argv environ
               (<[output_path := screenshot_file d]> disk)
               net [BrowserClosed] ps full_sequence)
      | StrictModeViolation _ =>
          failed (Error "strict mode violation")
            (halted ds argv environ disk net [BrowserOpen true] ps
               (calls_to_goto ++ calls_to_wait ++ [CallExit]))
      | Expired =>
          failed (AssertionError "Locator expected to be visible")
            (halted ds argv environ disk net [BrowserOpen true] ps
               (calls_to_goto ++ calls_to_wait ++ [CallExit]))
      end
  | Unreachable =>
      failed (Error "net::ERR_CONNECTION_REFUSED")
        (halted ds argv environ disk net [BrowserOpen true]
           [{| page_browser := 0; page_doc := None |}]
           (calls_to_goto ++ [CallExit]))
  | LoadTimeout =>
      failed (TimeoutError "Timeout 30000ms exceeded.")
        (halted ds argv environ disk net [BrowserOpen true]
           [{| page_browser := 0; page_doc := None |}]
           (calls_to_goto ++ [CallExit]))
  end.
Proof.
  unfold run_script. rewrite main_from_start, test_theme_packaging_working.
  destruct (net target_url) as [d| |]; [destruct (wait_on d)|..];
    reflexivity.
Qed.

Lemma run_script_boot argv environ disk net :
  run_script (boot argv environ disk net) =
  match net target_url with
  | Loaded d =>
      let ps := [{| page_browser := 0; page_doc := Some d |}] in
      match wait_on d with
      | Satisfied _ =>
          succeeded
            (halted (dirs_of disk ∪ made_dirs) argv environ
               (<[output_path := screenshot_file d]> disk)
               net [BrowserClosed] ps full_sequence)
      | StrictModeViolation _ =>
          failed (Error "strict mode violation")
            (halted (dirs_of disk) argv environ disk net [BrowserOpen true] ps
               (calls_to_goto ++ calls_to_wait ++ [CallExit]))
      | Expired =>
          failed (AssertionError "Locator expected to be visible")
            (halted (dirs_of disk) argv environ disk net [BrowserOpen true] ps
               (calls_to_goto ++ calls_to_wait ++ [CallExit]))
      end
  | Unreachable =>
      failed (Error "net::ERR_CONNECTION_REFUSED")
        (halted (dirs_of disk) argv environ disk net [BrowserOpen true]
           [{| page_browser := 0; page_doc := None |}]
           (calls_to_goto ++ [CallExit]))
  | LoadTimeout =>
      failed (TimeoutError "Timeout 30000ms exceeded.")
        (halted (dirs_of disk) argv environ disk net [BrowserOpen true]
           [{| page_browser := 0; page_doc := None |}]
           (calls_to_goto ++ [CallExit]))
  end.
Proof. exact (run_script_start (dirs_of disk) argv environ disk net). Qed.

(** ** The retry loop *)

Section Polling.

Variable obs : N -> list Element.

Lemma poll_satisfied_inv fuel t0 r :
  poll obs fuel t0 = Satisfied r ->
  (t0 <= r < t0 + N.of_nat fuel)%N /\ shown obs r.
Proof.
  revert t0. induction fuel as [|fuel IH]; intros t0 H; [discriminate|].
  cbn [poll] in H.
  destruct (obs t0) as [|e [|e' rest]] eqn:Hobs.
  - apply IH in H. destruct H as [Hr Hs]. split; [lia|exact Hs].
  - destruct (visible e) eqn:Hv.
    + injection H as <-. split; [lia|]. exists e. by rewrite Hobs.
    + apply IH in H. destruct H as [Hr Hs]. split; [lia|exact Hs].
  - discriminate.
Qed.

Lemma poll_violation_inv fuel t0 r :
  poll obs fuel t0 = StrictModeViolation r ->
  (t0 <= r < t0 + N.of_nat fuel)%N /\ 2 <= length (obs r).
Proof.
  revert t0. induction fuel as [|fuel IH]; intros t0 H; [discriminate|].
  cbn [poll] in H.
  destruct (obs t0) as [|e [|e' rest]] eqn:Hobs.
  - apply IH in H. destruct H as [Hr Hs]. split; [lia|exact Hs].
  - destruct (visible e).
    + discriminate.
    + apply IH in H. destruct H as [Hr Hs]. split; [lia|exact Hs].
  - injection H as <-. split; [lia|]. rewrite Hobs. cbn. lia.
Qed.

(** Enough time gives the result: the loop is satisfied no later than the
    first instant at which the expectation holds, if the locator did not
    resolve to several elements before. *)
Lemma poll_satisfied fuel t0 t :
  (t0 <= t < t0 + N.of_nat fuel)%N ->
  shown obs t ->
  (forall t', (t0 <= t' < t)%N -> length (obs t') <= 1) ->
  exists r, poll obs fuel t0 = Satisfied r /\ (r <= t)%N.
Proof.
  revert t0. induction fuel as [|fuel IH]; intros t0 Ht Hs Hone; [lia|].
  cbn [poll].
  destruct (N.eq_dec t0 t) as [->|Hne].
  - destruct Hs as (e & -> & ->). exists t. split; [reflexivity|lia].
  - assert (Hlen : length (obs t0) <= 1) by (apply Hone; lia).
    assert (Hrec : exists r, poll obs fuel (N.succ t0) = Satisfied r
                             /\ (r <= t)%N).
    { apply IH; [lia|exact Hs|]. intros t' Ht'. apply Hone. lia. }
    destruct (obs t0) as [|e [|e' rest]]; [exact Hrec| |cbn in Hlen; lia].
    destruct (visible e); [|exact Hrec].
    exists t0. split; [reflexivity|lia].
Qed.

(** While no resolved element is visible, the loop is never satisfied. *)
Lemma poll_unsatisfied fuel t0 :
  (forall t e, (t0 <= t < t0 + N.of_nat fuel)%N ->
               In e (obs t) -> visible e = false) ->
  poll obs fuel t0 = Expired \/
  exists r, poll obs fuel t0 = StrictModeViolation r.
Proof.
  intros Hnone.
  destruct (poll obs fuel t0) as [r|r|] eqn:Hp; [|right; eauto|left; auto].
  apply poll_satisfied_inv in Hp. destruct Hp as (Hr & e & Hobs & Hv).
  rewrite (Hnone r e Hr) in Hv; [discriminate|].
  rewrite Hobs. now left.
Qed.

Lemma poll_expired fuel t0 :
  (forall t e, (t0 <= t < t0 + N.of_nat fuel)%N ->
               In e (obs t) -> visible e = false) ->
  (forall t, (t0 <= t < t0 + N.of_nat fuel)%N -> length (obs t) <= 1) ->
  poll obs fuel t0 = Expired.
Proof.
  intros Hnone Hone.
  destruct (poll_unsatisfied fuel t0 Hnone) as [H|[r H]]; [exact H|].
  apply poll_violation_inv in H. destruct H as [Hr Hlen].
  specialize (Hone r Hr). lia.
Qed.
End Polling.

(** ** Name matching *)

Lemma append_cons (c : ascii) (s t : string) :
  String.append (String c s) t = String c (String.append s t).
Proof. reflexivity. Qed.

Lemma append_nil (t : string) : String.append EmptyString t = t.
Proof. reflexivity. Qed.

Lemma prefix_append (s t : string) : String.prefix s (String.append s t) = true.
Proof.
  induction s as [|c s IH].
  - rewrite append_nil. now destruct t.
  - rewrite append_cons. cbn [String.prefix].
    destruct (Ascii.ascii_dec c c) as [_|Hne]; [exact IH|congruence].
Qed.

Lemma contains_append (needle pre post : string) :
  contains needle (String.append pre (String.append needle post)) = true.
Proof.
  induction pre as [|c pre IH].
  - rewrite append_nil. destruct (String.append needle post) eqn:E;
      cbn [contains]; rewrite <- E, prefix_append; reflexivity.
  - rewrite append_cons. cbn [contains]. rewrite IH. apply orb_true_r.
Qed.

Lemma lower_append (s t : string) :
  lower (String.append s t) = String.append (lower s) (lower t).
Proof.
  induction s as [|c s IH].
  - reflexivity.
  - rewrite append_cons. cbn [lower]. now rewrite append_cons, IH.
Qed.

(** A heading is picked by the script's locator as soon as its accessible
    name holds the wanted name somewhere, in any letter case. *)
Lemma selects_heading (e : Element) (pre mid post : string) :
  role e = "heading" ->
  accessible_name e = String.append pre (String.append mid post) ->
  lower mid = lower "Theme Switcher Demo" ->
  selects heading_locator e = true.
Proof.
  intros Hrole Hname Hmid. unfold selects, heading_locator, name_matches.
  cbn [loc_role loc_name loc_exact]. rewrite Hrole, Hname.
  rewrite !lower_append, Hmid, contains_append. reflexivity.
Qed.

(** ** The wait of the script *)

Lemma frame_content_lookup (d : Document) (content : Timeline) :
  iframes d !! "storybook-preview-iframe" = Some content ->
  frame_content d frame_selector = content.
Proof.
  intros H.
  change (frame_content d frame_selector)
    with (match iframes d !! "storybook-preview-iframe" with
          | Some tl => tl
          | None => fun _ => []
          end).
  now rewrite H.
Qed.

Lemma resolve_lookup (d : Document) (content : Timeline) (t : N) :
  iframes d !! "storybook-preview-iframe" = Some content ->
  resolve d heading_locator t = List.filter (selects heading_locator) (content t).
Proof.
  intros H. unfold resolve.
  change (fl_selector (loc_frame heading_locator)) with frame_selector.
  now rewrite (frame_content_lookup d content H).
Qed.

(** The wait succeeds when, before the timeout, the frame holds a visible
    element the locator picks and the locator has resolved to no more than
    one element up to then. *)
Lemma wait_satisfied (d : Document) (content : Timeline) (t : N) (e : Element) :
  iframes d !! "storybook-preview-iframe" = Some content ->
  (t < visibility_timeout)%N ->
  In e (content t) ->
  selects heading_locator e = true ->
  visible e = true ->
  (forall t', (t' <= t)%N -> length (resolve d heading_locator t') <= 1) ->
  exists r, wait_on d = Satisfied r /\ (r <= t)%N.
Proof.
  intros Hframe Ht Hin Hsel Hvis Hone. unfold wait_on.
  apply poll_satisfied.
  - rewrite N2Nat.id. lia.
  - exists e. split; [|exact Hvis].
    assert (Hmem : In e (resolve d heading_locator t)).
    { rewrite (resolve_lookup d content t Hframe).
      apply filter_In. split; assumption. }
    specialize (Hone t (N.le_refl t)).
    destruct (resolve d heading_locator t) as [|e1 [|e2 rest]].
    + destruct Hmem.
    + destruct Hmem as [->|[]]. reflexivity.
    + cbn in Hone. lia.
  - intros t' Ht'. apply Hone. lia.
Qed.


(** ** Runs, by the outcome of the wait *)

Lemma run_success argv environ disk net d r :
  net target_url = Loaded d ->
  wait_on d = Satisfied r ->
  run_script (boot argv environ disk net) =
  succeeded
    (halted (dirs_of disk ∪ made_dirs) argv environ
       (<[output_path := screenshot_file d]> disk) net
       [BrowserClosed] [{| page_browser := 0; page_doc := Some d |}]
       full_sequence).
Proof. intros Hnet Hwait. now rewrite run_script_boot, Hnet, Hwait. Qed.

Lemma run_wait_failed argv environ disk net d :
  net target_url = Loaded d ->
  (forall r, wait_on d <> Satisfied r) ->
  exists e,
    (e = AssertionError "Locator expected to be visible" /\ wait_on d = Expired
     \/ e = Error "strict mode violation"
        /\ exists r, wait_on d = StrictModeViolation r) /\
    run_script (boot argv environ disk net) =
    failed e
      (halted (dirs_of disk) argv environ disk net [BrowserOpen true]
         [{| page_browser := 0; page_doc := Some d |}]
         (calls_to_goto ++ calls_to_wait ++ [CallExit])).
Proof.
  intros Hnet Hwait. rewrite run_script_boot, Hnet.
  destruct (wait_on d) as [r|r|] eqn:E.
  - now destruct (Hwait r).
  - eexists. split; [right; split; [reflexivity|eauto]|reflexivity].
  - eexists. split; [left; split; reflexivity|reflexivity].
Qed.

(** ** The example worlds *)

Lemma story_frame h appears height :
  iframes (story h appears height) !! "storybook-preview-iframe" =
  Some (fun t => if (t <? appears)%N then [] else [h]).
Proof. apply lookup_singleton_eq. Qed.

Lemma story_resolves_to_at_most_one h appears height t :
  length (resolve (story h appears height) heading_locator t) <= 1.
Proof.
  rewrite (resolve_lookup _ _ t (story_frame h appears height)).
  destruct (t <? appears)%N; cbn [List.filter length]; [lia|].
  destruct (selects heading_locator h); cbn [length]; lia.
Qed.

Lemma other_story_resolves_to_nothing (t : N) :
  resolve other_story heading_locator t = [].
Proof.
  unfold other_story.
  rewrite (resolve_lookup _ _ t (story_frame _ _ _)).
  destruct (t <? 0)%N; reflexivity.
Qed.

Lemma other_story_expires : wait_on other_story = Expired.
Proof.
  unfold wait_on. apply poll_expired.
  - intros t e _. rewrite other_story_resolves_to_nothing. intros [].
  - intros t _. rewrite other_story_resolves_to_nothing. cbn. lia.
Qed.

Lemma other_story_run argv environ disk :
  run_script (boot argv environ disk (storybook other_story)) =
  failed (AssertionError "Locator expected to be visible")
    (halted (dirs_of disk) argv environ disk (storybook other_story)
       [BrowserOpen true]
       [{| page_browser := 0; page_doc := Some other_story |}]
       (calls_to_goto ++ calls_to_wait ++ [CallExit])).
Proof.
  rewrite run_script_boot.
  change (storybook other_story target_url) with (Loaded other_story).
  cbv beta iota zeta. now rewrite other_story_expires.
Qed.

Lemma crowded_story_violates :
  wait_on crowded_story = StrictModeViolation 0.
Proof. vm_compute. reflexivity. Qed.

Lemma crowded_story_run argv environ disk :
  run_script (boot argv environ disk (storybook crowded_story)) =
  failed (Error "strict mode violation")
    (halted (dirs_of disk) argv environ disk (storybook crowded_story)
       [BrowserOpen true]
       [{| page_browser := 0; page_doc := Some crowded_story |}]
       (calls_to_goto ++ calls_to_wait ++ [CallExit])).
Proof.
  rewrite run_script_boot.
  change (storybook crowded_story target_url) with (Loaded crowded_story).
  cbv beta iota zeta. now rewrite crowded_story_violates.
Qed.

Lemma made_dirs_are :
  made_dirs = {[ "jules-scratch"; "jules-scratch/verification" ]}.
Proof.
  unfold made_dirs.
  assert (H : parent_dirs output_path =
              ["jules-scratch"; "jules-scratch/verification"])
    by (vm_compute; reflexivity).
  rewrite H. set_solver.
Qed.

(** * The claims *)

(** ** C1 *)




(** ** C2 *)




(** ** C3 *)






(** ** C4 *)

(** C4, as stated, fails: a run in which the heading never shows makes
    neither the screenshot call nor the close call, so it does not perform
    the whole sequence. *)
Lemma failed_run_stops_early :
  let o := run_script (boot [] ∅ ∅ (storybook other_story)) in
  trace (final o) <> full_sequence /\
  ~ In (CallScreenshot 0 (Some output_path) None) (trace (final o)) /\
  ~ In (CallClose 0) (trace (final o)).
Proof.
  cbn zeta. rewrite other_story_run. cbn [failed final halted trace].
  split; [discriminate|].
  split; cbn; intuition discriminate.
Qed.

(** C4, amended.  Every run performs an initial segment of the one linear
    sequence (start, launch, new page, navigation to the fixed URL, frame
    handle, role locator, one bounded visibility wait, screenshot, close),
    followed by the stop of the driver; the segment is the whole sequence
    exactly when the run succeeds; no call is made twice and there is at
    most one wait. *)
Theorem calls_are_a_prefix_of_the_sequence argv environ disk net :
  let o := run_script (boot argv environ disk net) in
  exists s,
    trace (final o) = (s ++ [CallExit])%list /\
    s `prefix_of` script_sequence /\
    (exit_status o = 0%Z <-> s = script_sequence) /\
    List.NoDup (trace (final o)) /\
    length (List.filter is_wait (trace (final o))) <= 1.
Proof.
  cbn zeta. rewrite run_script_boot.
  assert (Hdup : forall l : list Call,
             l `prefix_of` full_sequence -> List.NoDup full_sequence ->
             List.NoDup l).
  { intros l [k Hk] H. rewrite Hk in H. now apply NoDup_app_remove_r in H. }
  assert (Hfull : List.NoDup full_sequence).
  { repeat constructor; cbn; intuition discriminate. }
  destruct (net target_url) as [d| |]; [destruct (wait_on d)|..];
    cbn [succeeded failed exit_status final halted trace].
  - exists script_sequence. repeat split; auto.
  - exists (calls_to_goto ++ calls_to_wait)%list.
    split; [reflexivity|]. split; [eexists; reflexivity|].
    split; [split; discriminate|].
    split; [repeat constructor; cbn; intuition discriminate|cbn; lia].
  - exists (calls_to_goto ++ calls_to_wait)%list.
    split; [reflexivity|]. split; [eexists; reflexivity|].
    split; [split; discriminate|].
    split; [repeat constructor; cbn; intuition discriminate|cbn; lia].
  - exists calls_to_goto.
    split; [reflexivity|]. split; [eexists; reflexivity|].
    split; [split; discriminate|].
    split; [repeat constructor; cbn; intuition discriminate|cbn; lia].
  - exists calls_to_goto.
    split; [reflexivity|]. split; [eexists; reflexivity|].
    split; [split; discriminate|].
    split; [repeat constructor; cbn; intuition discriminate|cbn; lia].
Qed.

(** ** C5 *)

(** C5.  The browser is launched right after the driver starts.  When the
    run succeeds, [close] is the last call before the driver stops and the
    browser ends closed.  When the visibility wait raises, no [close] call
    is made and the browser is left as launched. *)
Theorem browser_closed_on_success_only argv environ disk net :
  let o := run_script (boot argv environ disk net) in
  (exists rest,
     trace (final o) = CallEnter :: CallLaunch Chromium (Some true) :: rest) /\
  (exit_status o = 0%Z ->
   (exists before,
      trace (final o) = (before ++ [CallClose 0; CallExit])%list) /\
   browsers (final o) = [BrowserClosed]) /\
  (forall d,
     net target_url = Loaded d ->
     (forall r, wait_on d <> Satisfied r) ->
     (forall b, ~ In (CallClose b) (trace (final o))) /\
     browsers (final o) = [BrowserOpen true]).
Proof.
  cbn zeta. split; [|split].
  - rewrite run_script_boot.
    destruct (net target_url) as [d| |]; [destruct (wait_on d)|..];
      eexists; reflexivity.
  - rewrite run_script_boot.
    destruct (net target_url) as [d| |]; [destruct (wait_on d)|..];
      cbn [succeeded failed exit_status final halted trace browsers];
      try discriminate.
    intros _. split; [|reflexivity].
    exists (calls_to_goto ++ calls_to_wait
            ++ [CallScreenshot 0 (Some output_path) None])%list.
    reflexivity.
  - intros d Hnet Hfail.
    destruct (run_wait_failed argv environ disk net d Hnet Hfail)
      as (e & _ & ->).
    cbn [failed final halted trace browsers]. split; [|reflexivity].
    intros b Hin. cbn in Hin.
    repeat (destruct Hin as [Hin|Hin]; [discriminate|]). exact Hin.
Qed.

Lemma browser_closed_on_success_only_witness :
  let o := run_script (boot [] ∅ ∅ (storybook other_story)) in
  (forall b, ~ In (CallClose b) (trace (final o))) /\
  browsers (final o) = [BrowserOpen true].
Proof.
  apply (proj2 (proj2 (browser_closed_on_success_only
                         [] ∅ ∅ (storybook other_story))) other_story).
  - reflexivity.
  - intros r Hr. rewrite other_story_expires in Hr. discriminate Hr.
Defined.

(** ** C6 *)

(** C6, as stated, fails: a successful run in a working directory without
    sub-directories leaves two directories behind, so other locations than
    the file at the output path were modified. *)
Lemma screenshot_makes_its_directories :
  let d := story first_slide_heading 0 720 in
  let o := run_script (start ∅ [] ∅ ∅ (storybook d)) in
  exit_status o = 0%Z /\
  dirs (start ∅ [] ∅ ∅ (storybook d)) = ∅ /\
  dirs (final o) = {[ "jules-scratch"; "jules-scratch/verification" ]} /\
  dirs (final o) <> ∅.
Proof.
  intros d.
  assert (Hwait : wait_on d = Satisfied 0) by (vm_compute; reflexivity).
  cbn zeta. rewrite run_script_start.
  change (storybook d target_url) with (Loaded d).
  cbv beta iota zeta. rewrite Hwait.
  cbn [succeeded exit_status final halted dirs start].
  rewrite made_dirs_are.
  split; [reflexivity|]. split; [reflexivity|]. split; set_solver.
Qed.

(** C6, amended.  A run leaves the files as they were or with one file
    replaced: the PNG at the fixed relative path, whatever was there
    before.  Every other path is untouched and at most one call writes a
    file.  The directories are as they were, or with [jules-scratch] and
    [jules-scratch/verification] made sure of; they are there after a run
    that succeeds.  Nothing is read: what the script does up to its one
    write is the same from any other working directory. *)
Theorem only_the_screenshot_and_its_directories_are_written
    ds argv environ disk net :
  let o := run_script (start ds argv environ disk net) in
  (fs (final o) = disk \/
   exists img,
     fs (final o) = <[output_path := {| format := Png; rows := img |}]> disk) /\
  (forall path, path <> output_path -> fs (final o) !! path = disk !! path) /\
  (exit_status o = 0%Z ->
   exists img,
     fs (final o) !! output_path = Some {| format := Png; rows := img |}) /\
  (dirs (final o) = ds \/
   dirs (final o) =
     ds ∪ {[ "jules-scratch"; "jules-scratch/verification" ]}) /\
  (exit_status o = 0%Z ->
   "jules-scratch" ∈ dirs (final o) /\
   "jules-scratch/verification" ∈ dirs (final o)) /\
  length (List.filter writes_file (trace (final o))) <= 1 /\
  (forall c, In c (trace (final o)) -> writes_file c = true ->
             c = CallScreenshot 0 (Some output_path) None) /\
  (forall ds' disk',
     let o' := run_script (start ds' argv environ disk' net) in
     until_write (trace (final o')) = until_write (trace (final o))).
Proof.
  cbn zeta. split; [|split; [|split; [|split; [|split; [|split; [|split]]]]]].
  - rewrite run_script_start.
    destruct (net target_url) as [d| |]; [destruct (wait_on d)|..];
      cbn [succeeded failed final halted fs]; auto.
    right. eexists. reflexivity.
  - intros path Hpath. rewrite run_script_start.
    destruct (net target_url) as [d| |]; [destruct (wait_on d)|..];
      cbn [succeeded failed final halted fs]; auto.
    now apply lookup_insert_ne.
  - rewrite run_script_start.
    destruct (net target_url) as [d| |]; [destruct (wait_on d)|..];
      cbn [succeeded failed exit_status final halted fs]; try discriminate.
    intros _. eexists. apply lookup_insert_eq.
  - rewrite run_script_start.
    destruct (net target_url) as [d| |]; [destruct (wait_on d)|..];
      cbn [succeeded failed final halted dirs]; auto.
  - rewrite run_script_start.
    destruct (net target_url) as [d| |]; [destruct (wait_on d)|..];
      cbn [succeeded failed exit_status final halted dirs]; try discriminate.
    intros _. rewrite made_dirs_are. split; set_solver.
  - rewrite run_script_start.
    destruct (net target_url) as [d| |]; [destruct (wait_on d)|..];
      cbn; lia.
  - intros c. rewrite run_script_start.
    destruct (net target_url) as [d| |]; [destruct (wait_on d)|..];
      cbn [succeeded failed final halted trace]; intros Hin Hw; cbn in Hin;
      repeat (destruct Hin as [<-|Hin]; [try discriminate Hw; auto|]);
      destruct Hin.
  - intros ds' disk'. rewrite !run_script_start.
    destruct (net target_url) as [d| |]; [destruct (wait_on d)|..];
      reflexivity.
Qed.

(** ** C7 *)

(** C7.  Two runs that differ only in the command-line arguments and the
    environment variables end alike: same exit status, same exception, same
    calls with the same constants (each one a call of the fixed sequence),
    same filesystem and same browser-side state.  The arguments and the
    environment are left as they were. *)
Theorem arguments_and_environment_are_ignored
    argv1 environ1 argv2 environ2 disk net :
  let o1 := run_script (boot argv1 environ1 disk net) in
  let o2 := run_script (boot argv2 environ2 disk net) in
  exit_status o1 = exit_status o2 /\
  uncaught o1 = uncaught o2 /\
  trace (final o1) = trace (final o2) /\
  fs (final o1) = fs (final o2) /\
  driver (final o1) = driver (final o2) /\
  browsers (final o1) = browsers (final o2) /\
  pages (final o1) = pages (final o2) /\
  (forall c, In c (trace (final o1)) -> In c full_sequence) /\
  sys_argv (final o1) = argv1 /\ os_environ (final o1) = environ1 /\
  sys_argv (final o2) = argv2 /\ os_environ (final o2) = environ2.
Proof.
  cbn zeta. rewrite !run_script_boot.
  destruct (net target_url) as [d| |]; [destruct (wait_on d)|..];
    cbn [succeeded failed exit_status uncaught final halted fs trace driver
         browsers pages sys_argv os_environ];
    repeat split; auto;
    intros c Hin; cbn in Hin |- *; intuition auto.
Qed.

(** ** C8 *)



(** ** C9 *)

Lemma wait_without_frame (d : Document) :
  iframes d !! "storybook-preview-iframe" = None ->
  wait_on d = Expired.
Proof.
  intros Hnone.
  assert (Hres : forall t, resolve d heading_locator t = []).
  { intros t. unfold resolve.
    change (frame_content d (fl_selector (loc_frame heading_locator)))
      with (match iframes d !! "storybook-preview-iframe" with
            | Some tl => tl
            | None => fun _ => []
            end).
    now rewrite Hnone. }
  unfold wait_on. apply poll_expired.
  - intros t e _. rewrite Hres. intros [].
  - intros t _. rewrite Hres. cbn. lia.
Qed.

(** C9, as stated, fails: the heading "Theme Switcher Demo Extended" is in
    the frame, visible, and picked by the locator, yet it does not satisfy
    the wait when the frame shows "Theme Switcher Demo" beside it: the
    locator resolves to two elements and the wait raises. *)
Lemma matching_heading_beside_another_fails_the_wait :
  let o := run_script (boot [] ∅ ∅ (storybook crowded_story)) in
  In extended_heading (frame_content crowded_story frame_selector 0) /\
  role extended_heading = "heading" /\
  accessible_name extended_heading =
    String.append "" (String.append "Theme Switcher Demo" " Extended") /\
  visible extended_heading = true /\
  selects heading_locator extended_heading = true /\
  wait_on crowded_story = StrictModeViolation 0 /\
  (forall r, wait_on crowded_story <> Satisfied r) /\
  exit_status o = 1%Z.
Proof.
  cbn zeta. rewrite crowded_story_run. cbn [failed exit_status].
  assert (Hframe : iframes crowded_story !! "storybook-preview-iframe" =
                   Some (fun _ : N => [first_slide_heading; extended_heading]))
    by apply lookup_singleton_eq.
  rewrite (frame_content_lookup _ _ Hframe), crowded_story_violates.
  repeat split; [right; now left|discriminate].
Qed.

(** C9, amended.  The locator the script waits on is scoped to the frame
    [#storybook-preview-iframe] and asks for role "heading" with the name
    "Theme Switcher Demo" and no [exact] option.  It picks any heading of
    that frame whose accessible name holds the wanted name as a substring,
    in any letter case ([pre], [mid], [post] cut the name around the
    occurrence, [mid] reading "theme switcher demo" in lower case), and
    the wait is satisfied, and the run succeeds, when such a heading is
    visible before the timeout, provided the locator has resolved to no
    second element up to then.  A document without that frame never
    satisfies the wait. *)
Theorem heading_is_matched_by_substring
    argv environ disk net d content t e pre mid post :
  net target_url = Loaded d ->
  iframes d !! "storybook-preview-iframe" = Some content ->
  (t < visibility_timeout)%N ->
  In e (content t) ->
  role e = "heading" ->
  accessible_name e = String.append pre (String.append mid post) ->
  lower mid = "theme switcher demo" ->
  visible e = true ->
  (forall t', (t' <= t)%N -> length (resolve d heading_locator t') <= 1) ->
  let o := run_script (boot argv environ disk net) in
  fl_selector (loc_frame heading_locator) = "#storybook-preview-iframe" /\
  loc_role heading_locator = "heading" /\
  loc_name heading_locator = Some "Theme Switcher Demo" /\
  loc_exact heading_locator = None /\
  In (CallToBeVisible heading_locator 30000) (trace (final o)) /\
  selects heading_locator e = true /\
  (exists r, wait_on d = Satisfied r) /\
  exit_status o = 0%Z /\
  (forall d', iframes d' !! "storybook-preview-iframe" = None ->
              wait_on d' = Expired).
Proof.
  intros Hnet Hframe Ht Hin Hrole Hname Hmid Hvis Hone o.
  assert (Hsel : selects heading_locator e = true)
    by exact (selects_heading e pre mid post Hrole Hname Hmid).
  destruct (wait_satisfied d content t e Hframe Ht Hin Hsel Hvis Hone)
    as (r & Hwait & _).
  subst o. rewrite (run_success argv environ disk net d r Hnet Hwait).
  cbn [succeeded exit_status final halted trace].
  repeat split; auto.
  - cbn. tauto.
  - eauto.
  - apply wait_without_frame.
Qed.

Lemma heading_is_matched_by_substring_witness :
  let d := story extended_heading 1200 2000 in
  let o := run_script (boot [] ∅ ∅ (storybook d)) in
  fl_selector (loc_frame heading_locator) = "#storybook-preview-iframe" /\
  loc_role heading_locator = "heading" /\
  loc_name heading_locator = Some "Theme Switcher Demo" /\
  loc_exact heading_locator = None /\
  In (CallToBeVisible heading_locator 30000) (trace (final o)) /\
  selects heading_locator extended_heading = true /\
  (exists r, wait_on d = Satisfied r) /\
  exit_status o = 0%Z /\
  (forall d', iframes d' !! "storybook-preview-iframe" = None ->
              wait_on d' = Expired).
Proof.
  intros d.
  apply (heading_is_matched_by_substring
           [] ∅ ∅ (storybook d) d
           (fun t => if (t <? 1200)%N then [] else [extended_heading])
           1200%N extended_heading "" "Theme Switcher Demo" " Extended").
  - reflexivity.
  - apply story_frame.
  - reflexivity.
  - left. reflexivity.
  - reflexivity.
  - reflexivity.
  - reflexivity.
  - reflexivity.
  - intros t' _. apply story_resolves_to_at_most_one.
Defined.

(** ** C10 *)

(** C10.  [__exit__] of [sync_playwright()] runs on every path, from any
    world: [main] ends with the driver stopped and the stop as its last
    call.  In particular, when [test_theme_packaging] raises, its exception
    is the one that ends the process, the driver, still running at that
    point, is stopped all the same, and no [close] call was made. *)
Theorem driver_is_stopped_on_both_paths argv environ disk net :
  (forall w, driver (snd (main w)) = DriverStopped /\
             last (trace (snd (main w))) = Some CallExit) /\
  (forall e w2,
     test_theme_packaging 0 (ready argv environ disk net) = (Raise e, w2) ->
     let o := run_script (boot argv environ disk net) in
     uncaught o = Some e /\
     exit_status o = 1%Z /\
     driver w2 = DriverRunning /\
     final o = stopped w2 /\
     driver (final o) = DriverStopped /\
     last (trace (final o)) = Some CallExit /\
     (forall b, ~ In (CallClose b) (trace (final o)))).
Proof.
  split.
  - intros w. unfold main.
    destruct (with_sync_playwright
                (fun p =>
                   let* browser := launch (chromium p) (Some true) in
                   let* page := new_page browser in
                   let* _ := test_theme_packaging page in
                   close browser) w)
      as (p & w1 & rb & w2 & _ & _ & _ & ->).
    cbn [snd stopped driver trace]. split; [reflexivity|apply last_snoc].
  - intros e w2 Htest o.
    assert (Hmain : main (boot argv environ disk net) = (Raise e, stopped w2))
      by now rewrite main_from_boot, Htest.
    assert (Hrun : o = failed e (stopped w2))
      by (subst o; unfold run_script; now rewrite Hmain).
    rewrite Hrun. cbn [failed uncaught exit_status final].
    assert (Hw2 : driver w2 = DriverRunning /\
                  forall b, ~ In (CallClose b) (trace w2)).
    { rewrite test_theme_packaging_ready in Htest.
      destruct (net target_url) as [d| |]; [destruct (wait_on d)|..];
        try discriminate Htest; injection Htest as _ <-;
        (split; [reflexivity|]); intros b Hin; cbn in Hin;
        repeat (destruct Hin as [Hin|Hin]; [discriminate|]); exact Hin. }
    destruct Hw2 as [Hdrv Hclose].
    repeat split; auto; [apply last_snoc|].
    intros b Hin. cbn [stopped trace] in Hin.
    apply in_app_or in Hin. destruct Hin as [Hin|[Hin|[]]].
    + exact (Hclose b Hin).
    + discriminate Hin.
Qed.

Lemma driver_is_stopped_on_both_paths_witness :
  let w := ready [] ∅ ∅ (storybook other_story) in
  let o := run_script (boot [] ∅ ∅ (storybook other_story)) in
  uncaught o = Some (AssertionError "Locator expected to be visible") /\
  exit_status o = 1%Z /\
  driver (snd (test_theme_packaging 0 w)) = DriverRunning /\
  final o = stopped (snd (test_theme_packaging 0 w)) /\
  driver (final o) = DriverStopped /\
  last (trace (final o)) = Some CallExit /\
  (forall b, ~ In (CallClose b) (trace (final o))).
Proof.
  intros w.
  apply (proj2 (driver_is_stopped_on_both_paths
                  [] ∅ ∅ (storybook other_story))
           (AssertionError "Locator expected to be visible")
           (snd (test_theme_packaging 0 w))).
  subst w. rewrite test_theme_packaging_ready.
  change (storybook other_story target_url) with (Loaded other_story).
  cbv beta iota zeta. rewrite other_story_expires. reflexivity.
Defined.

(** * Further properties *)

(** ** The functions in any world *)

Lemma live_page_irrel (w w' : World) (p : Page) :
  pages w' = pages w -> browsers w' = browsers w ->
  live_page w' p = live_page w p.
Proof. intros Hp Hb. unfold live_page. now rewrite Hp, Hb. Qed.

Lemma live_page_navigated (w w' : World) (p : Page) (ps : PageState) (d : Document) :
  live_page w p = Some ps ->
  pages w' = <[p := navigated ps d]> (pages w) ->
  browsers w' = browsers w ->
  live_page w' p = Some (navigated ps d).
Proof.
  unfold live_page. intros Hlive Hp Hb. rewrite Hp, Hb.
  destruct (pages w !! p) as [ps0|] eqn:Hlook; [|discriminate].
  rewrite list_lookup_insert_eq by (eapply lookup_lt_Some; eauto).
  cbn [navigated page_browser].
  destruct (browsers w !! page_browser ps0) as [[h|]|] eqn:Hbr;
    try discriminate.
  injection Hlive as <-. now rewrite Hbr.
Qed.

(** [test_theme_packaging] on any page and in any world, by cases. *)
Lemma test_theme_packaging_any (p : Page) (w : World) :
  test_theme_packaging p w =
  match live_page w p with
  | Some ps =>
      match server w target_url with
      | Loaded d =>
          let ps' := <[p := navigated ps d]> (pages w) in
          match wait_on d with
          | Satisfied _ =>
              (Ok tt,
               evolve w (<[output_path := screenshot_file d]> (fs w))
                 (dirs w ∪ made_dirs) ps'
                 (test_calls p))
          | StrictModeViolation _ =>
              (Raise (Error "strict mode violation"),
               evolve w (fs w) (dirs w) ps' (firstn 4 (test_calls p)))
          | Expired =>
              (Raise (AssertionError "Locator expected to be visible"),
               evolve w (fs w) (dirs w) ps' (firstn 4 (test_calls p)))
          end
      | Unreachable =>
          (Raise (Error "net::ERR_CONNECTION_REFUSED"),
           evolve w (fs w) (dirs w) (pages w) (firstn 1 (test_calls p)))
      | LoadTimeout =>
          (Raise (TimeoutError "Timeout 30000ms exceeded."),
           evolve w (fs w) (dirs w) (pages w) (firstn 1 (test_calls p)))
      end
  | None =>
      (Raise closed_error,
       evolve w (fs w) (dirs w) (pages w) (firstn 1 (test_calls p)))
  end.
Proof.
  unfold test_theme_packaging.
  unfold bind, goto, frame_locator, get_by_role, to_be_visible, screenshot,
    bind, log, get, set_pages, write_file, ret, raise, expect.
  cbn -[poll capture N.to_nat insert live_page union list_to_set parent_dirs].
  erewrite (live_page_irrel w) by reflexivity.
  destruct (live_page w p) as [ps|] eqn:Hlive; [|reflexivity].
  change (server w _) with (server w target_url).
  destruct (server w target_url) as [d| |]; [|reflexivity..].
  cbn -[poll capture N.to_nat insert live_page union list_to_set parent_dirs].
  erewrite (live_page_navigated w _ p ps d Hlive) by reflexivity.
  cbn -[poll capture N.to_nat insert live_page union list_to_set parent_dirs].
  unfold wait_on, heading_locator, frame_selector, visibility_timeout.
  destruct (poll _ _ _).
  - cbn -[poll capture N.to_nat insert live_page union list_to_set parent_dirs].
    erewrite (live_page_navigated w _ p ps d Hlive) by reflexivity.
    cbn -[capture insert union list_to_set parent_dirs]. unfold evolve.
    rewrite <- !app_assoc. reflexivity.
  - unfold evolve. cbn -[insert union]. rewrite <- !app_assoc. reflexivity.
  - unfold evolve. cbn -[insert union]. rewrite <- !app_assoc. reflexivity.
Qed.

Section FirstInstant.

Variable obs : N -> list Element.

(** Before the instant at which the loop is satisfied, the expectation did
    not hold and the locator resolved to no more than one element. *)
Lemma poll_satisfied_first fuel t0 r :
  poll obs fuel t0 = Satisfied r ->
  forall t', (t0 <= t' < r)%N -> length (obs t') <= 1 /\ ~ shown obs t'.
Proof.
  revert t0. induction fuel as [|fuel IH]; intros t0 H t' Ht'; [discriminate|].
  cbn [poll] in H.
  assert (Hrec : poll obs fuel (N.succ t0) = Satisfied r ->
                 (t0 < t')%N -> length (obs t') <= 1 /\ ~ shown obs t').
  { intros Hp Hlt. apply (IH _ Hp). lia. }
  destruct (N.eq_dec t0 t') as [<-|Hne].
  - destruct (obs t0) as [|e [|e' rest]] eqn:Hobs.
    + split; [cbn; lia|]. intros (e & He & _). rewrite Hobs in He.
      discriminate.
    + destruct (visible e) eqn:Hv.
      * injection H as <-. lia.
      * split; [cbn; lia|]. intros (e0 & He0 & Hv0). rewrite Hobs in He0.
        injection He0 as <-. congruence.
    + discriminate.
  - destruct (obs t0) as [|e [|e' rest]]; try discriminate;
      [|destruct (visible e); [injection H as <-; lia|]];
      apply Hrec; try assumption; lia.
Qed.

Lemma poll_violation fuel t0 t :
  (t0 <= t < t0 + N.of_nat fuel)%N ->
  2 <= length (obs t) ->
  (forall t', (t0 <= t' < t)%N -> length (obs t') <= 1 /\ ~ shown obs t') ->
  poll obs fuel t0 = StrictModeViolation t.
Proof.
  revert t0. induction fuel as [|fuel IH]; intros t0 Ht Hlen Hbefore; [lia|].
  cbn [poll].
  destruct (N.eq_dec t0 t) as [->|Hne].
  - destruct (obs t) as [|e [|e' rest]]; cbn in Hlen; try lia. reflexivity.
  - assert (Hrec : poll obs fuel (N.succ t0) = StrictModeViolation t).
    { apply IH; [lia|exact Hlen|]. intros t' Ht'. apply Hbefore. lia. }
    destruct (Hbefore t0 ltac:(lia)) as [Hone Hnot].
    destruct (obs t0) as [|e [|e' rest]] eqn:Hobs; [exact Hrec| |cbn in Hone; lia].
    destruct (visible e) eqn:Hv; [|exact Hrec].
    destruct Hnot. exists e. now rewrite Hobs.
Qed.

End FirstInstant.

Lemma prefix_split (n h : string) :
  String.prefix n h = true -> exists post, h = String.append n post.
Proof.
  revert h. induction n as [|c n IH]; intros h H.
  - exists h. reflexivity.
  - destruct h as [|c' h]; cbn [String.prefix] in H; [discriminate|].
    destruct (Ascii.ascii_dec c c') as [<-|]; [|discriminate].
    destruct (IH h H) as [post ->]. exists post. reflexivity.
Qed.

Lemma contains_split (n h : string) :
  contains n h = true ->
  exists pre post, h = String.append pre (String.append n post).
Proof.
  induction h as [|c h IH]; cbn [contains]; intros H.
  - rewrite orb_false_r in H. destruct (prefix_split _ _ H) as [post ->].
    exists EmptyString, post. reflexivity.
  - apply orb_true_iff in H. destruct H as [H|H].
    + destruct (prefix_split _ _ H) as [post ->].
      exists EmptyString, post. reflexivity.
    + destruct (IH H) as (pre & post & ->).
      exists (String c pre), post. reflexivity.
Qed.

Lemma lower_split (s a b : string) :
  lower s = String.append a b ->
  exists s1 s2, s = String.append s1 s2 /\ lower s1 = a /\ lower s2 = b.
Proof.
  revert s. induction a as [|c a IH]; intros s H.
  - exists EmptyString, s. auto.
  - destruct s as [|c' s]; [discriminate|].
    rewrite append_cons in H. cbn [lower] in H. injection H as Hc Hs.
    destruct (IH s Hs) as (s1 & s2 & -> & H1 & H2).
    exists (String c' s1), s2. rewrite append_cons. cbn [lower].
    now rewrite Hc, H1.
Qed.

(** X4.  The locator of the script picks an element exactly when its role
    is "heading" and its accessible name holds, somewhere, a stretch [mid]
    that reads "theme switcher demo" once put to lower case. *)
Theorem heading_locator_selects_exactly (e : Element) :
  selects heading_locator e = true <->
  role e = "heading" /\
  exists pre mid post,
    accessible_name e = String.append pre (String.append mid post) /\
    lower mid = "theme switcher demo".
Proof.
  split.
  - unfold selects, heading_locator, name_matches.
    cbn [loc_role loc_name loc_exact]. intros H.
    apply andb_true_iff in H. destruct H as [Hrole Hname].
    apply String.eqb_eq in Hrole. split; [now symmetry|].
    apply contains_split in Hname. destruct Hname as (a & b & Hname).
    apply lower_split in Hname. destruct Hname as (pre & rest & Hn & _ & Hrest).
    apply lower_split in Hrest. destruct Hrest as (mid & post & -> & Hmid & _).
    exists pre, mid, post. split; [exact Hn|exact Hmid].
  - intros (Hrole & pre & mid & post & Hname & Hmid).
    now apply (selects_heading e pre mid post).
Qed.

Lemma resolve_In (d : Document) (t : N) (e : Element) :
  In e (resolve d heading_locator t) <->
  In e (frame_content d frame_selector t) /\ selects heading_locator e = true.
Proof. unfold resolve. apply filter_In. Qed.

Lemma wait_satisfied_inv (d : Document) (r : N) :
  wait_on d = Satisfied r ->
  (r < visibility_timeout)%N /\
  shown (resolve d heading_locator) r /\
  forall t', (t' < r)%N ->
             length (resolve d heading_locator t') <= 1 /\
             ~ shown (resolve d heading_locator) t'.
Proof.
  unfold wait_on. intros Hw.
  destruct (poll_satisfied_inv _ _ _ _ Hw) as [Hr Hs].
  rewrite N2Nat.id in Hr. split; [lia|]. split; [exact Hs|].
  intros t' Ht'. apply (poll_satisfied_first _ _ _ _ Hw t'). lia.
Qed.

(** X1.  The process exits with status 0 only if the target URL was served
    and, at some instant before the timeout, the locator resolved to one
    visible element, having resolved to no more than one element before. *)
Theorem status_0_only_when_the_heading_was_shown argv environ disk net :
  exit_status (run_script (boot argv environ disk net)) = 0%Z ->
  exists d t,
    net target_url = Loaded d /\
    (t < visibility_timeout)%N /\
    shown (resolve d heading_locator) t /\
    forall t', (t' < t)%N -> length (resolve d heading_locator t') <= 1.
Proof.
  rewrite run_script_boot.
  destruct (net target_url) as [d| |]; [destruct (wait_on d) eqn:Hw|..];
    cbn [succeeded failed exit_status]; try discriminate.
  intros _. exists d, t. split; [reflexivity|].
  destruct (wait_satisfied_inv d t Hw) as (Ht & Hs & Hfirst).
  split; [exact Ht|]. split; [exact Hs|].
  intros t' Ht'. apply (Hfirst t' Ht').
Qed.

Lemma status_0_only_when_the_heading_was_shown_witness :
  let net := storybook (story first_slide_heading 0 720) in
  exists d t,
    net target_url = Loaded d /\
    (t < visibility_timeout)%N /\
    shown (resolve d heading_locator) t /\
    forall t', (t' < t)%N -> length (resolve d heading_locator t') <= 1.
Proof.
  intros net.
  apply (status_0_only_when_the_heading_was_shown [] ∅ ∅ net).
  assert (Hwait : wait_on (story first_slide_heading 0 720) = Satisfied 0)
    by (vm_compute; reflexivity).
  now rewrite (run_success [] ∅ ∅ net _ 0%N eq_refl Hwait).
Defined.

Lemma goto_ready argv environ disk net :
  goto 0 target_url (ready argv environ disk net) =
  match net target_url with
  | Loaded d =>
      (Ok tt,
       working (dirs_of disk) argv environ disk net (Some d) calls_to_goto)
  | Unreachable =>
      (Raise (Error "net::ERR_CONNECTION_REFUSED"),
       working (dirs_of disk) argv environ disk net None calls_to_goto)
  | LoadTimeout =>
      (Raise (TimeoutError "Timeout 30000ms exceeded."),
       working (dirs_of disk) argv environ disk net None calls_to_goto)
  end.
Proof.
  unfold goto, ready, working, bind. step.
  change (net _) with (net target_url).
  destruct (net target_url); step; reflexivity.
Qed.

(** X2.  When [goto], called as [main] calls it, raises, its exception is
    the one that ends the process, with status 1; the run made no call
    after [goto] but the stop of the driver: no wait, no screenshot, no
    [close]; the files are as they were. *)
Theorem raising_goto_ends_the_run argv environ disk net e w1 :
  goto 0 target_url (ready argv environ disk net) = (Raise e, w1) ->
  let o := run_script (boot argv environ disk net) in
  uncaught o = Some e /\
  exit_status o = 1%Z /\
  test_theme_packaging 0 (ready argv environ disk net) = (Raise e, w1) /\
  trace (final o) = (calls_to_goto ++ [CallExit])%list /\
  fs (final o) = disk.
Proof.
  intros Hgoto o. subst o. rewrite goto_ready in Hgoto.
  rewrite run_script_boot, test_theme_packaging_ready.
  destruct (net target_url) as [d| |]; try discriminate Hgoto;
    injection Hgoto as <- <-; repeat split.
Qed.

Lemma raising_goto_ends_the_run_witness :
  let net := fun _ : string => Unreachable in
  let o := run_script (boot [] ∅ ∅ net) in
  uncaught o = Some (Error "net::ERR_CONNECTION_REFUSED") /\
  exit_status o = 1%Z /\
  test_theme_packaging 0 (ready [] ∅ ∅ net) =
    (Raise (Error "net::ERR_CONNECTION_REFUSED"),
     snd (goto 0 target_url (ready [] ∅ ∅ net))) /\
  trace (final o) = (calls_to_goto ++ [CallExit])%list /\
  fs (final o) = ∅.
Proof.
  intros net.
  apply (raising_goto_ends_the_run [] ∅ ∅ net
           (Error "net::ERR_CONNECTION_REFUSED")
           (snd (goto 0 target_url (ready [] ∅ ∅ net)))).
  now rewrite goto_ready.
Defined.

(** X3.  When the first decisive instant of the wait is one at which the
    locator resolves to several elements, the run fails with Playwright's
    strict mode [Error] (no [AssertionError]), exit status 1, right after
    the wait: no screenshot call, the filesystem as it was. *)
Theorem several_matching_headings_fail_the_wait argv environ disk net d t :
  net target_url = Loaded d ->
  (t < visibility_timeout)%N ->
  2 <= length (resolve d heading_locator t) ->
  (forall t', (t' < t)%N ->
              length (resolve d heading_locator t') <= 1 /\
              ~ shown (resolve d heading_locator) t') ->
  let o := run_script (boot argv environ disk net) in
  uncaught o = Some (Error "strict mode violation") /\
  exit_status o = 1%Z /\
  fs (final o) = disk /\
  trace (final o) = (calls_to_goto ++ calls_to_wait ++ [CallExit])%list.
Proof.
  intros Hnet Ht Hlen Hbefore o.
  assert (Hw : wait_on d = StrictModeViolation t).
  { unfold wait_on. apply poll_violation; [rewrite N2Nat.id; lia|exact Hlen|].
    intros t' Ht'. apply Hbefore. lia. }
  subst o. rewrite run_script_boot, Hnet. cbv beta iota zeta. rewrite Hw.
  repeat split.
Qed.

Lemma crowded_story_resolves (t : N) :
  resolve crowded_story heading_locator t =
  [first_slide_heading; extended_heading].
Proof.
  assert (H : iframes crowded_story !! "storybook-preview-iframe" =
              Some (fun _ : N => [first_slide_heading; extended_heading]))
    by apply lookup_singleton_eq.
  rewrite (resolve_lookup _ _ t H). reflexivity.
Qed.

Lemma several_matching_headings_fail_the_wait_witness :
  let o := run_script (boot [] ∅ ∅ (storybook crowded_story)) in
  uncaught o = Some (Error "strict mode violation") /\
  exit_status o = 1%Z /\
  fs (final o) = ∅ /\
  trace (final o) = (calls_to_goto ++ calls_to_wait ++ [CallExit])%list.
Proof.
  apply (several_matching_headings_fail_the_wait
           [] ∅ ∅ (storybook crowded_story) crowded_story 0%N).
  - reflexivity.
  - reflexivity.
  - rewrite crowded_story_resolves. cbn. lia.
  - intros t' Ht'. lia.
Defined.

Lemma test_theme_packaging_shape (p : Page) (w : World) :
  exists disk' ds' ps' k,
    snd (test_theme_packaging p w) =
      evolve w disk' ds' ps' (firstn k (test_calls p)) /\
    (disk' = fs w \/
     exists d, disk' = <[output_path := screenshot_file d]> (fs w)) /\
    (ps' = pages w \/ exists ps, ps' = <[p := ps]> (pages w)).
Proof.
  rewrite test_theme_packaging_any.
  destruct (live_page w p) as [ps|];
    [destruct (server w target_url) as [d| |];
       [cbv zeta; destruct (wait_on d)|..]|];
    cbn [snd].
  - exists (<[output_path := screenshot_file d]> (fs w)),
      (dirs w ∪ made_dirs), (<[p := navigated ps d]> (pages w)), 5.
    split; [reflexivity|]. split; right; eexists; reflexivity.
  - exists (fs w), (dirs w), (<[p := navigated ps d]> (pages w)), 4.
    split; [reflexivity|]. split; [now left|right; eexists; reflexivity].
  - exists (fs w), (dirs w), (<[p := navigated ps d]> (pages w)), 4.
    split; [reflexivity|]. split; [now left|right; eexists; reflexivity].
  - exists (fs w), (dirs w), (pages w), 1. repeat split; now left.
  - exists (fs w), (dirs w), (pages w), 1. repeat split; now left.
  - exists (fs w), (dirs w), (pages w), 1. repeat split; now left.
Qed.

Lemma test_calls_never_close (p : Page) (k : nat) (b : Browser) :
  ~ In (CallClose b) (firstn k (test_calls p)).
Proof.
  intros Hin.
  assert (H : In (CallClose b) (test_calls p)).
  { rewrite <- (firstn_skipn k (test_calls p)). apply in_or_app. now left. }
  cbn in H. repeat (destruct H as [H|H]; [discriminate|]). exact H.
Qed.

(** X5.  [test_theme_packaging], on any page and in any world, leaves the
    driver, the browsers, the process inputs, every other page and every
    file but the one at the output path as they were; it adds an initial
    segment of its five calls to the log, and never a [close]. *)
Theorem test_leaves_browsers_and_other_files_alone (p : Page) (w : World) :
  let w' := snd (test_theme_packaging p w) in
  driver w' = driver w /\
  browsers w' = browsers w /\
  sys_argv w' = sys_argv w /\
  os_environ w' = os_environ w /\
  length (pages w') = length (pages w) /\
  (forall q, q <> p -> pages w' !! q = pages w !! q) /\
  (forall path, path <> output_path -> fs w' !! path = fs w !! path) /\
  (exists k, trace w' = (trace w ++ firstn k (test_calls p))%list) /\
  (forall b, In (CallClose b) (trace w') -> In (CallClose b) (trace w)).
Proof.
  cbn zeta.
  destruct (test_theme_packaging_shape p w)
    as (disk' & ds' & ps' & k & -> & Hdisk & Hpages).
  cbn [evolve driver browsers sys_argv os_environ pages fs trace].
  split; [reflexivity|]. split; [reflexivity|]. split; [reflexivity|].
  split; [reflexivity|]. split; [|split; [|split; [|split]]].
  - destruct Hpages as [->|[ps ->]]; [reflexivity|apply length_insert].
  - intros q Hq. destruct Hpages as [->|[ps ->]]; [reflexivity|].
    apply list_lookup_insert_ne. congruence.
  - intros path Hpath. destruct Hdisk as [->|[d ->]]; [reflexivity|].
    apply lookup_insert_ne. congruence.
  - exists k. reflexivity.
  - intros b Hin. apply in_app_or in Hin. destruct Hin as [Hin|Hin];
      [exact Hin|]. now apply test_calls_never_close in Hin.
Qed.

(** X6.  Called on a page handle that is unknown or whose browser is
    closed, [test_theme_packaging] raises at [goto], its only call: nothing
    is navigated and no file is written. *)
Theorem test_on_a_closed_page_raises_at_once (p : Page) (w : World) :
  pages w !! p = None \/
  (exists ps, pages w !! p = Some ps /\
              browsers w !! page_browser ps = Some BrowserClosed) ->
  let r := test_theme_packaging p w in
  fst r = Raise closed_error /\
  fs (snd r) = fs w /\
  pages (snd r) = pages w /\
  trace (snd r) = (trace w ++ [CallGoto p target_url])%list.
Proof.
  intros Hdead.
  assert (Hlive : live_page w p = None).
  { unfold live_page. destruct Hdead as [->|(ps & -> & ->)]; reflexivity. }
  cbn zeta. rewrite test_theme_packaging_any, Hlive. repeat split.
Qed.

Lemma test_on_a_closed_page_raises_at_once_witness :
  let w := final (run_script
                    (boot [] ∅ ∅ (storybook (story first_slide_heading 0 720)))) in
  let r := test_theme_packaging 0 w in
  fst r = Raise closed_error /\
  fs (snd r) = fs w /\
  pages (snd r) = pages w /\
  trace (snd r) = (trace w ++ [CallGoto 0 target_url])%list.
Proof.
  intros w. apply (test_on_a_closed_page_raises_at_once 0 w).
  right. eexists. split; vm_compute; reflexivity.
Defined.

(** X7.  [test_theme_packaging] returns normally only if the page was
    live, the server served the target URL and, at an instant before the
    timeout, the frame held a visible heading whose name contains "theme
    switcher demo", letter case apart; the page then holds the served
    document and the file at the output path is its viewport capture. *)
Theorem test_passes_only_on_a_shown_heading (p : Page) (w w' : World) :
  test_theme_packaging p w = (Ok tt, w') ->
  exists ps d t e,
    live_page w p = Some ps /\
    server w target_url = Loaded d /\
    (t < visibility_timeout)%N /\
    In e (frame_content d frame_selector t) /\
    role e = "heading" /\
    contains "theme switcher demo" (lower (accessible_name e)) = true /\
    visible e = true /\
    fs w' !! output_path = Some (screenshot_file d) /\
    pages w' !! p = Some (navigated ps d).
Proof.
  rewrite test_theme_packaging_any.
  destruct (live_page w p) as [ps|] eqn:Hlive; [|discriminate].
  destruct (server w target_url) as [d| |]; try discriminate.
  cbv zeta. destruct (wait_on d) as [t| |] eqn:Hw; try discriminate.
  intros [= <-].
  destruct (wait_satisfied_inv d t Hw) as (Ht & (e & Hres & Hvis) & _).
  assert (Hin : In e (resolve d heading_locator t))
    by (rewrite Hres; now left).
  apply resolve_In in Hin. destruct Hin as [Hin Hsel].
  unfold selects, heading_locator, name_matches in Hsel.
  cbn [loc_role loc_name loc_exact] in Hsel.
  apply andb_true_iff in Hsel. destruct Hsel as [Hrole Hname].
  apply String.eqb_eq in Hrole.
  exists ps, d, t, e. cbn [evolve fs pages].
  repeat split; auto.
  - apply lookup_insert_eq.
  - apply list_lookup_insert_eq. unfold live_page in Hlive.
    destruct (pages w !! p) eqn:Hlook; [|discriminate].
    eapply lookup_lt_Some; eauto.
Qed.

Lemma main_enters (w : World) :
  main w =
  match test_theme_packaging (length (pages w)) (entered w) with
  | (Ok _, w2) =>
      match close (length (browsers w)) w2 with
      | (Ok _, w3) => (Ok tt, stopped w3)
      | (Raise e, w3) => (Raise e, stopped w3)
      end
  | (Raise e, w2) => (Raise e, stopped w2)
  end.
Proof.
  unfold main, with_, entered.
  unfold bind at 1 2, sync_playwright_enter, sync_playwright_exit, launch,
    new_page.
  unfold bind, log, set_driver, set_browsers, set_pages, get, ret, raise.
  cbn -[test_theme_packaging close lookup].
  rewrite (list_lookup_middle (browsers w) [] (BrowserOpen true)) by reflexivity.
  cbn -[test_theme_packaging close lookup].
  rewrite <- !app_assoc. cbn [app].
  destruct (test_theme_packaging _ _) as [[[]|e] w2]; [|reflexivity].
  destruct (close _ w2) as [[[]|e] w3]; reflexivity.
Qed.

Lemma entered_live_page (w : World) :
  live_page (entered w) (length (pages w)) =
  Some {| page_browser := length (browsers w); page_doc := None |}.
Proof.
  unfold live_page, entered. cbn [pages browsers].
  rewrite (list_lookup_middle (pages w) []) by reflexivity.
  cbn [page_browser].
  now rewrite (list_lookup_middle (browsers w) []) by reflexivity.
Qed.

Lemma insert_last {A} (l : list A) (x y : A) :
  <[length l := y]> (l ++ [x])%list = (l ++ [y])%list.
Proof.
  rewrite insert_app_r_alt by lia. now rewrite Nat.sub_diag.
Qed.

(** [main] from any world, by cases. *)
Lemma main_any (w : World) :
  let b := length (browsers w) in
  let p := length (pages w) in
  main w =
  match server w target_url with
  | Loaded d =>
      match wait_on d with
      | Satisfied _ =>
          (Ok tt,
           ended w BrowserClosed (Some d)
             (<[output_path := screenshot_file d]> (fs w))
             (dirs w ∪ made_dirs) (main_calls b p 5 true))
      | StrictModeViolation _ =>
          (Raise (Error "strict mode violation"),
           ended w (BrowserOpen true) (Some d) (fs w) (dirs w)
             (main_calls b p 4 false))
      | Expired =>
          (Raise (AssertionError "Locator expected to be visible"),
           ended w (BrowserOpen true) (Some d) (fs w) (dirs w)
             (main_calls b p 4 false))
      end
  | Unreachable =>
      (Raise (Error "net::ERR_CONNECTION_REFUSED"),
       ended w (BrowserOpen true) None (fs w) (dirs w)
         (main_calls b p 1 false))
  | LoadTimeout =>
      (Raise (TimeoutError "Timeout 30000ms exceeded."),
       ended w (BrowserOpen true) None (fs w) (dirs w)
         (main_calls b p 1 false))
  end.
Proof.
  cbn zeta. rewrite main_enters, test_theme_packaging_any, entered_live_page.
  change (server (entered w) target_url) with (server w target_url).
  destruct (server w target_url) as [d| |].
  - cbv zeta. change (pages (entered w))
      with (pages w ++ [{| page_browser := length (browsers w);
                           page_doc := None |}])%list.
    rewrite insert_last.
    destruct (wait_on d).
    + unfold close, bind, log, get, set_browsers, raise.
      cbn -[lookup insert test_calls union].
      rewrite (list_lookup_middle (browsers w) []) by reflexivity.
      cbn -[lookup insert test_calls union]. rewrite insert_last.
      unfold stopped, ended, main_calls, navigated.
      cbn -[insert test_calls union]. rewrite <- !app_assoc. reflexivity.
    + unfold stopped, ended, main_calls, navigated, evolve, entered.
      cbn -[insert test_calls union]. rewrite <- !app_assoc. reflexivity.
    + unfold stopped, ended, main_calls, navigated, evolve, entered.
      cbn -[insert test_calls union]. rewrite <- !app_assoc. reflexivity.
  - unfold stopped, ended, main_calls, navigated, evolve, entered.
    cbn -[insert test_calls union]. rewrite <- !app_assoc. reflexivity.
  - unfold stopped, ended, main_calls, navigated, evolve, entered.
    cbn -[insert test_calls union]. rewrite <- !app_assoc. reflexivity.
Qed.

Lemma test_passes_only_on_a_shown_heading_witness :
  let d := story first_slide_heading 0 720 in
  let w := ready [] ∅ ∅ (storybook d) in
  exists ps d t e,
    live_page w 0 = Some ps /\
    server w target_url = Loaded d /\
    (t < visibility_timeout)%N /\
    In e (frame_content d frame_selector t) /\
    role e = "heading" /\
    contains "theme switcher demo" (lower (accessible_name e)) = true /\
    visible e = true /\
    fs (snd (test_theme_packaging 0 w)) !! output_path =
      Some (screenshot_file d) /\
    pages (snd (test_theme_packaging 0 w)) !! 0 = Some (navigated ps d).
Proof.
  intros d w.
  apply (test_passes_only_on_a_shown_heading 0 w
           (snd (test_theme_packaging 0 w))).
  assert (Hwait : wait_on d = Satisfied 0) by (vm_compute; reflexivity).
  subst w. rewrite test_theme_packaging_ready.
  change (storybook d target_url) with (Loaded d).
  cbv beta iota zeta. rewrite Hwait. reflexivity.
Defined.

(** X8.  In a process where no driver runs, [main] works on a browser and
    a page of its own: the handles it uses were free, every call it makes
    is on them (start, launch, new page, an initial segment of the calls of
    the test on that page, [close] on that browser, stop), and [close] is
    among them exactly when [main] returns normally.  Files other than the
    one at the output path, the arguments and the environment are left as
    they were. *)
Theorem main_works_on_a_browser_and_page_of_its_own (w : World) :
  driver w <> DriverRunning ->
  let b := length (browsers w) in
  let p := length (pages w) in
  browsers w !! b = None /\
  pages w !! p = None /\
  (exists k closed,
     trace (snd (main w)) = (trace w ++ main_calls b p k closed)%list /\
     (closed = true <-> fst (main w) = Ok tt)) /\
  (forall path, path <> output_path ->
                fs (snd (main w)) !! path = fs w !! path) /\
  sys_argv (snd (main w)) = sys_argv w /\
  os_environ (snd (main w)) = os_environ w.
Proof.
  intros _. cbn zeta.
  split; [apply lookup_ge_None; lia|]. split; [apply lookup_ge_None; lia|].
  pose proof (main_any w) as H. cbn zeta in H. rewrite H. clear H.
  destruct (server w target_url) as [d| |]; [destruct (wait_on d)|..];
    cbn [fst snd ended fs sys_argv os_environ trace].
  - split; [exists 5, true; split; [reflexivity|tauto]|].
    split; [|split; reflexivity].
    intros path Hpath. apply lookup_insert_ne. congruence.
  - split; [exists 4, false; split; [reflexivity|split; discriminate]|].
    repeat split.
  - split; [exists 4, false; split; [reflexivity|split; discriminate]|].
    repeat split.
  - split; [exists 1, false; split; [reflexivity|split; discriminate]|].
    repeat split.
  - split; [exists 1, false; split; [reflexivity|split; discriminate]|].
    repeat split.
Qed.

Lemma main_works_on_a_browser_and_page_of_its_own_witness :
  let w := final (run_script (boot [] ∅ ∅ (storybook other_story))) in
  browsers w !! 1 = None /\
  pages w !! 1 = None /\
  (exists k closed,
     trace (snd (main w)) = (trace w ++ main_calls 1 1 k closed)%list /\
     (closed = true <-> fst (main w) = Ok tt)) /\
  (forall path, path <> output_path ->
                fs (snd (main w)) !! path = fs w !! path) /\
  sys_argv (snd (main w)) = sys_argv w /\
  os_environ (snd (main w)) = os_environ w.
Proof.
  intros w.
  assert (Hw : w = halted (dirs_of ∅) [] ∅ ∅ (storybook other_story)
                 [BrowserOpen true]
                 [{| page_browser := 0; page_doc := Some other_story |}]
                 (calls_to_goto ++ calls_to_wait ++ [CallExit]))
    by (subst w; now rewrite other_story_run).
  pose proof (main_works_on_a_browser_and_page_of_its_own w) as H.
  rewrite Hw in H |- *. apply H. discriminate.
Defined.
